(** * Wiz GraphQL proxy: token cache, token acquisition and request handler

    A shallow embedding of [wiz-graphql-proxy.py].  The module-level dict
    [token_cache] is the only mutable state; it is threaded explicitly.  The
    outside world (the wall clock, the identity provider, the upstream
    GraphQL API and Flask's view of the inbound request) is an argument of the
    handlers, and every outbound call and log line is recorded as an event. *)

From Stdlib Require Import ZArith List String Bool Lia SpecFloat.
Import ListNotations.
Open Scope string_scope.
Open Scope list_scope.
Open Scope Z_scope.
Set Warnings "-register-all".

(** ** Python values

    The values that [response.json()] can produce whose handling stays
    inside integer arithmetic: [None], booleans, integers, strings, lists and
    dicts.  JSON numbers written with a fraction or an exponent (Python
    floats) are not represented here.  A dict is an association list read by
    first match. *)

Inductive pyval : Type :=
| PNone
| PBool (b : bool)
| PInt (n : Z)
| PStr (s : string)
| PList (l : list pyval)
| PDict (d : list (string * pyval)).

(** What [request.get_json()] can return: any JSON value, floats included
    ([NaN] and the infinities too, which Python's parser accepts).  The
    handlers never look inside such a value. *)
Inductive jsonv : Type :=
| JNull
| JBool (b : bool)
| JInt (n : Z)
| JFloat (f : spec_float)
| JStr (s : string)
| JArr (l : list jsonv)
| JObj (d : list (string * jsonv)).

(** Python truth value, as used by [if x and y]. *)
Definition truthy (v : pyval) : bool :=
  match v with
  | PNone => false
  | PBool b => b
  | PInt n => negb (n =? 0)
  | PStr s => match s with EmptyString => false | String _ _ => true end
  | PList l => match l with [] => false | _ => true end
  | PDict d => match d with [] => false | _ => true end
  end.

Fixpoint lookup (k : string) (d : list (string * pyval)) : option pyval :=
  match d with
  | [] => None
  | (k', v) :: d' => if (k =? k')%string then Some v else lookup k d'
  end.

(** ** Exceptions *)

Inductive exn : Type :=
| ConnectionError (msg : string)  (* requests.post failed: connection, timeout, ... *)
| HTTPError (status : Z)          (* response.raise_for_status() *)
| JSONDecodeError                 (* response.json() on a body that is not JSON *)
| KeyError (key : string)
| TypeError
| AttributeError
| OverflowError
| BadRequest (msg : string).      (* werkzeug: request.get_json() failed *)

(** The classes caught by [except requests.exceptions.RequestException]
    (requests raises its own JSONDecodeError, a RequestException). *)
Definition is_RequestException (e : exn) : bool :=
  match e with
  | ConnectionError _ | HTTPError _ | JSONDecodeError => true
  | _ => false
  end.

Inductive result (A : Type) : Type :=
| Ok (a : A)
| Raise (e : exn).
Arguments Ok {A} a.
Arguments Raise {A} e.

(** ** Time

    A [datetime] is its number of microseconds since [datetime.min]
    (0001-01-01T00:00:00); a [timedelta] is a number of microseconds. *)

Definition us_per_second : Z := 1000000.
Definition seconds_per_day : Z := 86400.
Definition MAX_DELTA_DAYS : Z := 999999999.
Definition MAXORDINAL : Z := 3652059.

(** [timedelta(seconds=n)] for an integer [n]. *)
Definition timedelta_seconds (n : Z) : result Z :=
  let days := n / seconds_per_day in
  if (Z.abs days >? MAX_DELTA_DAYS) then Raise OverflowError
  else Ok (n * us_per_second).

(** [dt + delta]: the sum must be a date of the years 1..9999. *)
Definition datetime_add (dt delta : Z) : result Z :=
  let r := dt + delta in
  if (0 <=? r) && (r <? MAXORDINAL * seconds_per_day * us_per_second)
  then Ok r else Raise OverflowError.

(** [v - 60] *)
Definition py_sub (v : pyval) (k : Z) : result Z :=
  match v with
  | PInt n => Ok (n - k)
  | PBool b => Ok ((if b then 1 else 0) - k)
  | _ => Raise TypeError
  end.

(** ** The token cache *)

Record cache : Type := mkCache {
  access_token : pyval;
  expires_at : option Z
}.

Definition token_cache : cache := mkCache PNone None.

(** ** The outside world *)

Record http_response : Type := mkHttp {
  status_code : Z;
  content : string;            (* the response body, as received *)
  json : option pyval          (* response.json(); None when it raises *)
}.

Inductive http_outcome : Type :=
| NetFail (msg : string)       (* requests.post raises *)
| Replied (r : http_response).

Record env : Type := mkEnv {
  now_check : Z;               (* datetime.now() of the cache check *)
  now_store : Z;               (* datetime.now() when the expiry is stored *)
  auth_reply : http_outcome;   (* the identity provider's answer *)
  upstream_reply : http_outcome (* the GraphQL API's answer *)
}.

Record request : Type := mkRequest {
  method : string;
  data : string;               (* the raw inbound body *)
  get_json : result jsonv      (* request.get_json() *)
}.

Inductive event : Type :=
| LogUsingCached
| LogFetching
| LogRefreshed (at_ : Z)
| LogTokenFailed (e : exn)
| LogProxying
| LogProxyError (e : exn)
| AuthPost                     (* the call requests.post(WIZ_AUTH_URL, ...) *)
| UpstreamPost (bearer : pyval) (payload : jsonv).
                               (* the call requests.post(WIZ_GRAPHQL_URL, ...) *)

(** ** The monad: cache state, exceptions, emitted events *)

Definition M (A : Type) : Type := cache -> result A * cache * list event.

Definition ret {A} (a : A) : M A := fun c => (Ok a, c, []).

Definition bind {A B} (m : M A) (f : A -> M B) : M B :=
  fun c =>
    match m c with
    | (Ok a, c1, ev1) =>
        match f a c1 with
        | (r, c2, ev2) => (r, c2, ev1 ++ ev2)
        end
    | (Raise e, c1, ev1) => (Raise e, c1, ev1)
    end.

Definition raise {A} (e : exn) : M A := fun c => (Raise e, c, []).

Definition lift {A} (r : result A) : M A := fun c => (r, c, []).

Definition emit (e : event) : M unit := fun c => (Ok tt, c, [e]).

Definition read_cache : M cache := fun c => (Ok c, c, []).

Definition set_access_token (v : pyval) : M unit :=
  fun c => (Ok tt, mkCache v (expires_at c), []).

Definition set_expires_at (t : Z) : M unit :=
  fun c => (Ok tt, mkCache (access_token c) (Some t), []).

(** [try: m  except <classes accepted by handles> as e: h e] *)
Definition try_except {A} (m : M A) (handles : exn -> bool) (h : exn -> M A) : M A :=
  fun c =>
    match m c with
    | (Raise e, c1, ev1) =>
        if handles e then
          match h e c1 with
          | (r, c2, ev2) => (r, c2, ev1 ++ ev2)
          end
        else (Raise e, c1, ev1)
    | ok => ok
    end.

Declare Scope py_scope.
Delimit Scope py_scope with py.
Notation "x <- m ;; k" := (bind m (fun x => k))
  (at level 100, m at next level, right associativity) : py_scope.
Notation "m ;;; k" := (bind m (fun _ => k))
  (at level 100, right associativity) : py_scope.
Open Scope py_scope.

(** ** Library operations used by the handlers *)

(** [v[k]] for a string key [k]. *)
Definition subscript (v : pyval) (k : string) : result pyval :=
  match v with
  | PDict d => match lookup k d with
               | Some x => Ok x
               | None => Raise (KeyError k)
               end
  | _ => Raise TypeError
  end.

(** [v.get(k, default)] *)
Definition dict_get (v : pyval) (k : string) (default : pyval) : result pyval :=
  match v with
  | PDict d => match lookup k d with
               | Some x => Ok x
               | None => Ok default
               end
  | _ => Raise AttributeError
  end.

(** [requests.post(WIZ_AUTH_URL, headers=..., data=..., timeout=30)] *)
Definition requests_post_auth (w : env) : M http_response :=
  emit AuthPost ;;;
  match auth_reply w with
  | NetFail msg => raise (ConnectionError msg)
  | Replied r => ret r
  end.

(** [requests.post(WIZ_GRAPHQL_URL, headers=headers, json=payload, timeout=60)],
    where [headers] carries [Authorization: Bearer <token>].  The event is
    the call; the world's answer is what the call does: it returns a
    response, or it raises, after sending (no connection, timeout) or before
    anything is sent (a bearer that is no legal header value, a payload that
    cannot be encoded, such as NaN).  For [json=None] requests sends the
    request without a body. *)
Definition requests_post_upstream (w : env) (token : pyval) (payload : jsonv) : M http_response :=
  emit (UpstreamPost token payload) ;;;
  match upstream_reply w with
  | NetFail msg => raise (ConnectionError msg)
  | Replied r => ret r
  end.

(** [response.raise_for_status()]: raises on 4xx and 5xx. *)
Definition raise_for_status (r : http_response) : M unit :=
  if (400 <=? status_code r) && (status_code r <? 600)
  then raise (HTTPError (status_code r))
  else ret tt.

(** [response.json()] *)
Definition response_json (r : http_response) : M pyval :=
  match json r with
  | Some v => ret v
  | None => raise JSONDecodeError
  end.

(** ** Responses returned to the caller *)

Inductive body : Type :=
| Empty
| Bytes (b : string)           (* bytes handed to Response as they are *)
| JsonError (e : exn)          (* jsonify({'error': str(e)}) *)
| JsonStatus (s : string).     (* jsonify({'status': s}) *)

Record response : Type := mkResponse {
  resp_body : body;
  resp_status : Z;
  resp_headers : list (string * string)
}.

Definition has_header (name : string) (hs : list (string * string)) : bool :=
  existsb (fun h => (fst h =? name)%string) hs.

(** werkzeug's [Response(body, status=, headers=)]: the given headers, and the
    default content type when they name none. *)
Definition Response (b : body) (status : Z) (headers : list (string * string)) : response :=
  mkResponse b status
    (if has_header "Content-Type" headers then headers
     else headers ++ [("Content-Type", "text/html; charset=utf-8")]).

(** [jsonify(doc), status] *)
Definition jsonify (doc : body) (status : Z) : response :=
  mkResponse doc status [("Content-Type", "application/json")].

(** ** The handlers *)

(** The test of lines 37-38: the cached token when the cache holds a truthy
    token and an expiry that [now] is strictly before. *)
Definition cache_check (c : cache) (now : Z) : option pyval :=
  if truthy (access_token c) then
    match expires_at c with
    | Some ea => if now <? ea then Some (access_token c) else None
    | None => None
    end
  else None.

Definition get_wiz_token (w : env) : M pyval :=
  c <- read_cache ;;
  match cache_check c (now_check w) with
  | Some tok => emit LogUsingCached ;;; ret tok
  | None =>
      emit LogFetching ;;;
      try_except
        (resp <- requests_post_auth w ;;
         raise_for_status resp ;;;
         token_data <- response_json resp ;;
         tok <- lift (subscript token_data "access_token") ;;
         set_access_token tok ;;;
         lifetime <- lift (dict_get token_data "expires_in" (PInt 3600)) ;;
         expires_in <- lift (py_sub lifetime 60) ;;
         delta <- lift (timedelta_seconds expires_in) ;;
         ea <- lift (datetime_add (now_store w) delta) ;;
         set_expires_at ea ;;;
         emit (LogRefreshed ea) ;;;
         c' <- read_cache ;;
         ret (access_token c'))
        is_RequestException
        (fun e => emit (LogTokenFailed e) ;;; raise e)
  end.

Definition cors_preflight_headers : list (string * string) :=
  [("Access-Control-Allow-Origin", "*");
   ("Access-Control-Allow-Methods", "POST, OPTIONS");
   ("Access-Control-Allow-Headers", "Content-Type, Authorization")].

Definition proxy_graphql (req : request) (w : env) : M response :=
  if (method req =? "OPTIONS")%string then
    ret (Response Empty 200 cors_preflight_headers)
  else
    try_except
      (token <- get_wiz_token w ;;
       graphql_query <- lift (get_json req) ;;
       emit LogProxying ;;;
       resp <- requests_post_upstream w token graphql_query ;;
       ret (Response (Bytes (content resp)) (status_code resp)
              [("Content-Type", "application/json");
               ("Access-Control-Allow-Origin", "*")]))
      (fun _ => true)
      (fun e => emit (LogProxyError e) ;;; ret (jsonify (JsonError e) 500)).

Definition health : M response :=
  ret (jsonify (JsonStatus "healthy") 200).

Definition introspection (req : request) (w : env) : M response :=
  proxy_graphql req w.

(** * The sync job

    A shallow embedding of [wiz-sync.py], the caller of the proxy.  The job
    keeps no state of its own; what it does is the sequence of its calls: the
    POST to the proxy, the calls on the PostgreSQL connection, each with its
    outcome, and its log lines.  The state threaded through is the number of
    [execute] and [commit] calls made so far on the connection, which selects
    the database's answer. *)

Module Sync.

Inductive sync_exn : Type :=
| Py (e : exn)                   (* raised by the Python code or by requests *)
| DatabaseError (msg : string).  (* psycopg2.Error *)

Inductive outcome (A : Type) : Type :=
| Done (a : A)
| Fail (e : sync_exn).
Arguments Done {A} a.
Arguments Fail {A} e.

(** The six SQL statements of [sync_to_postgres], in the order of the file. *)
Inductive statement : Type :=
| CreateTable
| CreateIndexSeverity
| CreateIndexStatus
| TruncateIssues
| UpsertIssue
| UpsertMetrics.

Inductive event : Type :=
| LogStarting
| ProxyPost (payload : pyval)    (* the call requests.post(WIZ_PROXY_URL, json=payload, ...) *)
| Connect (ok : bool)            (* psycopg2.connect(...) *)
| Execute (s : statement) (params : list pyval) (ok : bool)
| Commit (ok : bool)
| LogSynced (n : nat)
| Close
| LogCompleted
| LogSyncFailed (e : sync_exn).

Record world : Type := mkWorld {
  proxy_reply : http_outcome;        (* the proxy's answer *)
  connect_reply : option string;     (* Some msg: psycopg2.connect raises *)
  db_reply : nat -> option string    (* Some msg: the n-th execute or commit raises
                                        (a server error, or a parameter psycopg2
                                        cannot adapt) *)
}.

Definition D (A : Type) : Type := nat -> outcome A * nat * list event.

Definition ret {A} (a : A) : D A := fun n => (Done a, n, []).

Definition bind {A B} (m : D A) (f : A -> D B) : D B :=
  fun n =>
    match m n with
    | (Done a, n1, ev1) =>
        match f a n1 with
        | (r, n2, ev2) => (r, n2, ev1 ++ ev2)
        end
    | (Fail e, n1, ev1) => (Fail e, n1, ev1)
    end.

Definition raise {A} (e : sync_exn) : D A := fun n => (Fail e, n, []).

Definition lift {A} (r : result A) : D A :=
  fun n => match r with
           | Ok a => (Done a, n, [])
           | Raise e => (Fail (Py e), n, [])
           end.

Definition emit (e : event) : D unit := fun n => (Done tt, n, [e]).

(** [try: m  finally: cleanup] *)
Definition finally {A} (m : D A) (cleanup : D unit) : D A :=
  fun n =>
    match m n with
    | (r, n1, ev1) =>
        match cleanup n1 with
        | (Done _, n2, ev2) => (r, n2, ev1 ++ ev2)
        | (Fail e, n2, ev2) => (Fail e, n2, ev1 ++ ev2)
        end
    end.

(** [try: m  except Exception as e: h e] *)
Definition try_except {A} (m : D A) (h : sync_exn -> D A) : D A :=
  fun n =>
    match m n with
    | (Fail e, n1, ev1) =>
        match h e n1 with
        | (r, n2, ev2) => (r, n2, ev1 ++ ev2)
        end
    | ok => ok
    end.

Declare Scope sync_scope.
Delimit Scope sync_scope with sync.
Notation "x <- m ;; k" := (bind m (fun x => k))
  (at level 100, m at next level, right associativity) : sync_scope.
Notation "m ;;; k" := (bind m (fun _ => k))
  (at level 100, right associativity) : sync_scope.
Local Open Scope sync_scope.

Fixpoint for_each {A} (l : list A) (f : A -> D unit) : D unit :=
  match l with
  | [] => ret tt
  | x :: l' => f x ;;; for_each l' f
  end.

(** The GraphQL query of [fetch_wiz_issues]. *)
Definition query : string := "
    query GetWizIssues {
      issuesV2(first: 100) {
        nodes {
          id
          severity
          status
          createdAt
          entitySnapshot {
            name
            type
          }
        }
        totalCount
      }
    }
    ".

(** [requests.post(WIZ_PROXY_URL, json=payload, headers=headers)] *)
Definition requests_post (w : world) (payload : pyval) : D http_response :=
  emit (ProxyPost payload) ;;;
  match proxy_reply w with
  | NetFail msg => raise (Py (ConnectionError msg))
  | Replied r => ret r
  end.

Definition raise_for_status (r : http_response) : D unit :=
  if (400 <=? status_code r) && (status_code r <? 600)
  then raise (Py (HTTPError (status_code r)))
  else ret tt.

Definition response_json (r : http_response) : D pyval :=
  match json r with
  | Some v => ret v
  | None => raise (Py JSONDecodeError)
  end.

Definition fetch_wiz_issues (w : world) : D pyval :=
  response <- requests_post w (PDict [("query", PStr query)]) ;;
  raise_for_status response ;;;
  doc <- response_json response ;;
  data <- lift (subscript doc "data") ;;
  lift (subscript data "issuesV2").

(** The keys of a dict, each once, in the order of first appearance. *)
Fixpoint keys (d : list (string * pyval)) : list string :=
  match d with
  | [] => []
  | (k, _) :: d' => k :: filter (fun k' => negb (k' =? k)%string) (keys d')
  end.

Fixpoint chars (s : string) : list pyval :=
  match s with
  | EmptyString => []
  | String a s' => PStr (String a EmptyString) :: chars s'
  end.

(** The elements that [for x in v] visits: the items of a list, the keys of
    a dict, the characters of a string; anything else is not iterable. *)
Definition py_iter (v : pyval) : result (list pyval) :=
  match v with
  | PList l => Ok l
  | PDict d => Ok (map PStr (keys d))
  | PStr s => Ok (chars s)
  | _ => Raise TypeError
  end.

Definition and_then {A B} (r : result A) (f : A -> result B) : result B :=
  match r with
  | Ok a => f a
  | Raise e => Raise e
  end.

(** [issue['entitySnapshot'][k] if issue['entitySnapshot'] else None] *)
Definition snapshot_field (issue : pyval) (k : string) : result pyval :=
  and_then (subscript issue "entitySnapshot") (fun snap =>
  if truthy snap
  then and_then (subscript issue "entitySnapshot") (fun snap' => subscript snap' k)
  else Ok PNone).

(** The parameter tuple of the INSERT, evaluated left to right. *)
Definition issue_params (issue : pyval) : result (list pyval) :=
  and_then (subscript issue "id") (fun id =>
  and_then (subscript issue "severity") (fun severity =>
  and_then (subscript issue "status") (fun status =>
  and_then (subscript issue "createdAt") (fun created_at =>
  and_then (snapshot_field issue "name") (fun entity_name =>
  and_then (snapshot_field issue "type") (fun entity_type =>
  Ok [id; severity; status; created_at; entity_name; entity_type])))))).

(** [psycopg2.connect(...)] *)
Definition connect (w : world) : D unit :=
  match connect_reply w with
  | None => emit (Connect true)
  | Some msg => emit (Connect false) ;;; raise (DatabaseError msg)
  end.

(** [cur.execute(s, params)] *)
Definition execute (w : world) (s : statement) (params : list pyval) : D unit :=
  fun n =>
    match db_reply w n with
    | None => (Done tt, S n, [Execute s params true])
    | Some msg => (Fail (DatabaseError msg), S n, [Execute s params false])
    end.

(** [conn.commit()] *)
Definition commit (w : world) : D unit :=
  fun n =>
    match db_reply w n with
    | None => (Done tt, S n, [Commit true])
    | Some msg => (Fail (DatabaseError msg), S n, [Commit false])
    end.

Definition sync_to_postgres (w : world) (issues_data : pyval) : D unit :=
  connect w ;;;
  finally
    (execute w CreateTable [] ;;;
     execute w CreateIndexSeverity [] ;;;
     execute w CreateIndexStatus [] ;;;
     execute w TruncateIssues [] ;;;
     nodes <- lift (subscript issues_data "nodes") ;;
     issues <- lift (py_iter nodes) ;;
     for_each issues (fun issue =>
       params <- lift (issue_params issue) ;;
       execute w UpsertIssue params) ;;;
     total <- lift (subscript issues_data "totalCount") ;;
     execute w UpsertMetrics [total] ;;;
     commit w ;;;
     emit (LogSynced (List.length issues)))
    (emit Close).

Definition main (w : world) : D unit :=
  try_except
    (emit LogStarting ;;;
     issues <- fetch_wiz_issues w ;;
     sync_to_postgres w issues ;;;
     emit LogCompleted)
    (fun e => emit (LogSyncFailed e) ;;; raise e).

End Sync.

(** * Vocabulary of the properties *)

(** The lifetime the code reads from the provider's answer [d]. *)
Definition reported_lifetime (d : list (string * pyval)) (L : Z) : Prop :=
  lookup "expires_in" d = Some (PInt L) \/
  (lookup "expires_in" d = None /\ L = 3600).

(** The provider answers with a token [tok] and a lifetime of [L] seconds. *)
Definition provider_reports (w : env) (tok : pyval) (L : Z) : Prop :=
  exists r d,
    auth_reply w = Replied r /\
    (400 <=? status_code r) && (status_code r <? 600) = false /\
    json r = Some (PDict d) /\
    lookup "access_token" d = Some tok /\
    reported_lifetime d L.

(** The lifetimes for which [datetime.now() + timedelta(seconds=L - 60)]
    is a date. *)
Definition lifetime_in_range (now L : Z) : Prop :=
  Z.abs ((L - 60) / seconds_per_day) <= MAX_DELTA_DAYS /\
  0 <= now + (L - 60) * us_per_second
    < MAXORDINAL * seconds_per_day * us_per_second.

(** A token [tok] stored with lifetime [L] at time [T]: the cache [c] left
    by a call of [get_wiz_token] that went to the provider at [T], was
    answered with [tok] and [L], and returned. *)
Definition stored (tok : pyval) (L T : Z) (c : cache) : Prop :=
  exists w c0 ev,
    now_store w = T /\
    provider_reports w tok L /\
    In AuthPost ev /\
    get_wiz_token w c0 = (Ok tok, c, ev).


Definition is_upstream (e : event) : bool :=
  match e with
  | UpstreamPost _ _ => true
  | _ => false
  end.

(** [requests.post] was called on the GraphQL API. *)
Definition forwarded (ev : list event) : bool := existsb is_upstream ev.

Definition is_auth (e : event) : bool :=
  match e with
  | AuthPost => true
  | _ => false
  end.

(** The number of calls to the identity provider, and to the GraphQL API. *)
Definition count_auth (ev : list event) : nat := List.length (filter is_auth ev).
Definition count_upstream (ev : list event) : nat := List.length (filter is_upstream ev).

(** What a client of the proxy receives for the handler's response [resp]:
    its status, the bytes of its body, and [loads] of these bytes as the
    client's [response.json()]. *)
Definition served (loads : string -> option pyval) (resp : response)
    (r : http_response) : Prop :=
  status_code r = resp_status resp /\
  json r = loads (content r) /\
  (forall b, resp_body resp = Bytes b -> content r = b).

(** The calls of the sync job on the database connection. *)
Definition is_db_call (e : Sync.event) : bool :=
  match e with
  | Sync.Connect _ | Sync.Execute _ _ _ | Sync.Commit _ | Sync.Close => true
  | _ => false
  end.

Definition db_calls (ev : list Sync.event) : list Sync.event := filter is_db_call ev.

(** A commit that succeeded. *)
Definition is_committed (e : Sync.event) : bool :=
  match e with
  | Sync.Commit true => true
  | _ => false
  end.

Definition committed (ev : list Sync.event) : bool := existsb is_committed ev.

(** A computation of the sync job that never commits, and one that commits
    exactly when it completes. *)
Definition never_commits {A} (m : Sync.D A) : Prop :=
  forall n, committed (snd (m n)) = false.

Definition commits_iff_done {A} (m : Sync.D A) : Prop :=
  forall n, committed (snd (m n)) = true <-> exists a, fst (fst (m n)) = Sync.Done a.

(** ** Sample data *)

(** 2026-01-01T00:00:00, in microseconds since [datetime.min]. *)
Definition t0 : Z := 739616 * seconds_per_day * us_per_second.

(** The provider's answer [{"access_token": tok, "expires_in": 3600}]. *)
Definition reply_3600 (tok : pyval) : http_outcome :=
  Replied (mkHttp 200 "<token document>"
             (Some (PDict [("access_token", tok); ("expires_in", PInt 3600)]))).

Definition upstream_ok : http_outcome :=
  Replied (mkHttp 200 "<upstream body>" None).

(** A sample inbound request and sample worlds. *)
Definition post_typename : request :=
  mkRequest "POST" "<typename query>" (Ok (JObj [("query", JStr "{ __typename }")])).

Definition world_ok : env := mkEnv t0 t0 (reply_3600 (PStr "abc")) upstream_ok.

Definition world_denied : env :=
  mkEnv t0 t0 (Replied (mkHttp 401 "<denied>" None)) upstream_ok.

Definition world_upstream_down : env :=
  mkEnv t0 t0 (reply_3600 (PStr "abc")) (NetFail "timed out").

(** Two issues as the API returns them, the second without snapshot. *)
Definition sample_issue : pyval :=
  PDict [("id", PStr "issue-1"); ("severity", PStr "CRITICAL");
         ("status", PStr "OPEN"); ("createdAt", PStr "2025-01-01T00:00:00Z");
         ("entitySnapshot",
          PDict [("name", PStr "vm-1"); ("type", PStr "VIRTUAL_MACHINE")])].

Definition sample_issue_no_snapshot : pyval :=
  PDict [("id", PStr "issue-2"); ("severity", PStr "LOW");
         ("status", PStr "RESOLVED"); ("createdAt", PStr "2025-01-02T00:00:00Z");
         ("entitySnapshot", PNone)].

Definition sample_issues_data : list (string * pyval) :=
  [("nodes", PList [sample_issue; sample_issue_no_snapshot]);
   ("totalCount", PInt 2)].

(** A database that accepts everything. *)
Definition healthy_db : Sync.world :=
  Sync.mkWorld (NetFail "unused") None (fun _ => None).

(** ** Evaluation tactics *)

Ltac run :=
  cbv beta iota zeta delta
    [get_wiz_token proxy_graphql introspection requests_post_auth
     requests_post_upstream raise_for_status response_json try_except bind ret
     raise lift emit read_cache set_access_token set_expires_at
     subscript dict_get py_sub timedelta_seconds datetime_add app
     access_token expires_at is_RequestException].

(** Case analysis on the innermost scrutinee that blocks evaluation. *)
Ltac split_match :=
  match goal with
  | |- context [match ?x with _ => _ end] =>
      lazymatch x with
      | context [match _ with _ => _ end] => fail
      | _ => destruct x eqn:?
      end
  end; run.

Ltac run_handler :=
  cbv beta iota zeta delta
    [proxy_graphql introspection requests_post_upstream try_except bind ret
     raise lift emit String.eqb Ascii.eqb Bool.eqb].

Ltac in_events Hin :=
  repeat rewrite in_app_iff in Hin; simpl in Hin;
  repeat match type of Hin with
         | _ \/ _ => destruct Hin as [Hin | Hin]
         end;
  try contradiction; try discriminate Hin.

Ltac run_sync :=
  cbv beta iota zeta delta
    [Sync.fetch_wiz_issues Sync.requests_post Sync.raise_for_status
     Sync.response_json Sync.bind Sync.ret Sync.raise Sync.lift Sync.emit
     Sync.try_except Sync.main subscript app].

(** * Properties *)

(** ** Running [get_wiz_token] *)

(** A cache hit returns the cached token and touches nothing. *)
Lemma get_wiz_token_hit (w : env) (c : cache) (tok : pyval) :
  cache_check c (now_check w) = Some tok ->
  get_wiz_token w c = (Ok tok, c, [LogUsingCached]).
Proof.
  intros H. run. rewrite H. reflexivity.
Qed.

(** A cache miss always goes to the identity provider. *)
Lemma get_wiz_token_miss (w : env) (c : cache) :
  cache_check c (now_check w) = None ->
  exists res c' ev, get_wiz_token w c = (res, c', LogFetching :: AuthPost :: ev).
Proof.
  intros H. run. rewrite H.
  repeat split_match; repeat eexists.
Qed.

(** What a successful acquisition does: one call to the provider, and the
    cache holds the new token with expiry [now + (L - 60) seconds]. *)
Lemma get_wiz_token_acquires (w : env) (c : cache) (tok : pyval) (L : Z) :
  cache_check c (now_check w) = None ->
  provider_reports w tok L ->
  lifetime_in_range (now_store w) L ->
  let ea := now_store w + (L - 60) * us_per_second in
  get_wiz_token w c =
    (Ok tok, mkCache tok (Some ea), [LogFetching; AuthPost; LogRefreshed ea]).
Proof.
  intros Hmiss (r & d & Hr & Hst & Hj & Htok & HL) [Hd Hrange] ea. run.
  rewrite Hmiss, Hr. run. rewrite Hst. run. rewrite Hj. run.
  rewrite Htok. run.
  assert (Hlt : (match lookup "expires_in" d with
                 | Some x => Ok x | None => Ok (PInt 3600) end) = Ok (PInt L)).
  { destruct HL as [-> | [-> ->]]; reflexivity. }
  rewrite Hlt. run.
  assert (Hd' : (Z.abs ((L - 60) / seconds_per_day) >? MAX_DELTA_DAYS) = false).
  { rewrite Z.gtb_ltb. apply Z.ltb_ge. exact Hd. }
  rewrite Hd'. run.
  assert (Hr' : (0 <=? now_store w + (L - 60) * us_per_second)
                && (now_store w + (L - 60) * us_per_second
                    <? MAXORDINAL * seconds_per_day * us_per_second) = true).
  { apply andb_true_intro. split; [apply Z.leb_le | apply Z.ltb_lt]; lia. }
  rewrite Hr'. reflexivity.
Qed.

(** Conversely, a call that reached the provider and returned has stored
    exactly that. *)
Lemma get_wiz_token_acquired_inv (w : env) (c c' : cache) (t tok : pyval)
    (L : Z) (ev : list event) :
  get_wiz_token w c = (Ok t, c', ev) ->
  In AuthPost ev ->
  provider_reports w tok L ->
  t = tok /\ c' = mkCache tok (Some (now_store w + (L - 60) * us_per_second)).
Proof.
  intros H Hin (r & d & Hr & Hst & Hj & Htok & HL). revert H. run.
  destruct (cache_check c (now_check w)) eqn:Hc.
  - intros H. inversion H; subst. simpl in Hin.
    destruct Hin as [Hin | []]; discriminate Hin.
  - rewrite Hr. run. rewrite Hst. run. rewrite Hj. run. rewrite Htok. run.
    assert (Hlt : (match lookup "expires_in" d with
                   | Some x => Ok x | None => Ok (PInt 3600) end) = Ok (PInt L)).
    { destruct HL as [-> | [-> ->]]; reflexivity. }
    rewrite Hlt. run.
    destruct (Z.abs ((L - 60) / seconds_per_day) >? MAX_DELTA_DAYS); run;
      [intros H; discriminate H|].
    destruct ((0 <=? now_store w + (L - 60) * us_per_second)
              && (now_store w + (L - 60) * us_per_second
                  <? MAXORDINAL * seconds_per_day * us_per_second)); run;
      intros H; inversion H; auto.
Qed.

Lemma stored_cache (tok : pyval) (L T : Z) (c : cache) :
  stored tok L T c ->
  c = mkCache tok (Some (T + (L - 60) * us_per_second)).
Proof.
  intros (w & c0 & ev & HT & Hp & Hin & Hrun). subst T.
  apply (get_wiz_token_acquired_inv w c0 c tok tok L ev Hrun Hin Hp).
Qed.

Lemma stored_intro (w : env) (c0 : cache) (tok : pyval) (L : Z) :
  cache_check c0 (now_check w) = None ->
  provider_reports w tok L ->
  lifetime_in_range (now_store w) L ->
  stored tok L (now_store w)
    (mkCache tok (Some (now_store w + (L - 60) * us_per_second))).
Proof.
  intros Hmiss Hp Hrange.
  exists w, c0, [LogFetching; AuthPost;
                 LogRefreshed (now_store w + (L - 60) * us_per_second)].
  split; [reflexivity | split; [exact Hp | split]].
  - simpl. auto.
  - apply get_wiz_token_acquires; assumption.
Qed.

(** ** Cache validity *)

(** C1 (as amended).  For every token stored in the cache with
    provider-reported lifetime [L] seconds at time [T]: when the token is
    truthy (a non-empty string), [get_wiz_token] returns it from the cache,
    without calling the provider, at every query time strictly before
    [T + L - 60] seconds; and for any token the cache check fails and the
    provider is called at every query time at or after [T + L - 60]
    seconds. *)
Theorem cache_validity (tok : pyval) (L T : Z) (c : cache) (w : env) :
  stored tok L T c ->
  (truthy tok = true ->
   now_check w < T + (L - 60) * us_per_second ->
   cache_check c (now_check w) = Some tok /\
   get_wiz_token w c = (Ok tok, c, [LogUsingCached]))
  /\
  (T + (L - 60) * us_per_second <= now_check w ->
   cache_check c (now_check w) = None /\
   exists res c' ev,
     get_wiz_token w c = (res, c', LogFetching :: AuthPost :: ev)).
Proof.
  intros Hs. apply stored_cache in Hs. subst c. split.
  - intros Ht Hq.
    assert (Hc : cache_check
                   (mkCache tok (Some (T + (L - 60) * us_per_second)))
                   (now_check w) = Some tok).
    { unfold cache_check. simpl. rewrite Ht.
      apply Z.ltb_lt in Hq. rewrite Hq. reflexivity. }
    split; [exact Hc | apply get_wiz_token_hit; exact Hc].
  - intros Hq.
    assert (Hc : cache_check
                   (mkCache tok (Some (T + (L - 60) * us_per_second)))
                   (now_check w) = None).
    { unfold cache_check. simpl. apply Z.ltb_ge in Hq. rewrite Hq.
      destruct (truthy tok); reflexivity. }
    split; [exact Hc | apply get_wiz_token_miss; exact Hc].
Qed.

Lemma reply_3600_reports (now1 now2 : Z) (up : http_outcome) (tok : pyval) :
  provider_reports (mkEnv now1 now2 (reply_3600 tok) up) tok 3600.
Proof.
  eexists. eexists.
  split; [reflexivity|]. split; [reflexivity|]. split; [reflexivity|].
  split; [reflexivity|]. left. reflexivity.
Qed.

Lemma lifetime_3600_at_t0 : lifetime_in_range t0 3600.
Proof. unfold lifetime_in_range. vm_compute. intuition discriminate. Qed.

(** The token ["abc"] stored at [t0] with lifetime 3600 seconds. *)
Lemma stored_abc :
  stored (PStr "abc") 3600 t0 (mkCache (PStr "abc") (Some (t0 + 3540 * us_per_second))).
Proof.
  apply (stored_intro (mkEnv t0 t0 (reply_3600 (PStr "abc")) upstream_ok) token_cache).
  - reflexivity.
  - apply reply_3600_reports.
  - exact lifetime_3600_at_t0.
Qed.

Lemma cache_validity_witness :
  let c := mkCache (PStr "abc") (Some (t0 + 3540 * us_per_second)) in
  let w := mkEnv (t0 + 3000 * us_per_second) t0 (NetFail "down") (NetFail "down") in
  cache_check c (now_check w) = Some (PStr "abc") /\
  get_wiz_token w c = (Ok (PStr "abc"), c, [LogUsingCached]).
Proof.
  intros c w.
  apply (proj1 (cache_validity (PStr "abc") 3600 t0 c w stored_abc)).
  - reflexivity.
  - reflexivity.
Defined.

(** The claim as first stated fails for the empty token: it is stored, with
    its expiry, and never served from the cache. *)
Lemma cache_validity_empty_token :
  ~ (forall tok L T c q,
        stored tok L T c ->
        q < T + (L - 60) * us_per_second ->
        cache_check c q = Some tok).
Proof.
  intros H.
  specialize (H (PStr EmptyString) 3600 t0
                (mkCache (PStr EmptyString) (Some (t0 + 3540 * us_per_second)))
                (t0 + 3000 * us_per_second)).
  assert (Hs : stored (PStr EmptyString) 3600 t0
                 (mkCache (PStr EmptyString) (Some (t0 + 3540 * us_per_second)))).
  { apply (stored_intro
             (mkEnv t0 t0 (reply_3600 (PStr EmptyString)) upstream_ok) token_cache).
    - reflexivity.
    - apply reply_3600_reports.
    - exact lifetime_3600_at_t0. }
  specialize (H Hs eq_refl). discriminate H.
Qed.

(** The scenario of the specification: the cache is empty, the provider
    answers ["abc"] with [expires_in] 3600 at [t0]; a lookup 3000 seconds
    later is served from the cache, a lookup 3600 seconds later is not. *)
Example scenario_abc :
  let c := mkCache (PStr "abc") (Some (t0 + 3540 * us_per_second)) in
  get_wiz_token (mkEnv t0 t0 (reply_3600 (PStr "abc")) upstream_ok) token_cache
    = (Ok (PStr "abc"), c, [LogFetching; AuthPost; LogRefreshed (t0 + 3540 * us_per_second)])
  /\ cache_check c (t0 + 3000 * us_per_second) = Some (PStr "abc")
  /\ cache_check c (t0 + 3600 * us_per_second) = None.
Proof. repeat split. Qed.

(** ** Expiry computation *)

(** C2.  On a successful token acquisition the cached expiry is the current
    time plus the provider-reported lifetime minus 60 seconds, and a
    response without [expires_in] counts as a lifetime of 3600 seconds. *)
Theorem expiry_is_now_plus_lifetime_minus_margin (w : env) (c : cache)
    (r : http_response) (d : list (string * pyval)) (tok : pyval) :
  cache_check c (now_check w) = None ->
  auth_reply w = Replied r ->
  (400 <=? status_code r) && (status_code r <? 600) = false ->
  json r = Some (PDict d) ->
  lookup "access_token" d = Some tok ->
  (forall L,
      lookup "expires_in" d = Some (PInt L) ->
      lifetime_in_range (now_store w) L ->
      exists ev,
        get_wiz_token w c =
          (Ok tok,
           mkCache tok (Some (now_store w + L * us_per_second - 60 * us_per_second)),
           ev))
  /\
  (lookup "expires_in" d = None ->
   lifetime_in_range (now_store w) 3600 ->
   exists ev,
     get_wiz_token w c =
       (Ok tok,
        mkCache tok (Some (now_store w + 3600 * us_per_second - 60 * us_per_second)),
        ev)).
Proof.
  intros Hmiss Hr Hst Hj Htok. split.
  - intros L HL Hrange.
    assert (Hp : provider_reports w tok L).
    { exists r, d. unfold reported_lifetime. auto 10. }
    eexists. rewrite (get_wiz_token_acquires w c tok L Hmiss Hp Hrange).
    replace (now_store w + L * us_per_second - 60 * us_per_second)
      with (now_store w + (L - 60) * us_per_second) by lia.
    reflexivity.
  - intros HL Hrange.
    assert (Hp : provider_reports w tok 3600).
    { exists r, d. unfold reported_lifetime. auto 10. }
    eexists. rewrite (get_wiz_token_acquires w c tok 3600 Hmiss Hp Hrange).
    replace (now_store w + 3600 * us_per_second - 60 * us_per_second)
      with (now_store w + (3600 - 60) * us_per_second) by lia.
    reflexivity.
Qed.

Lemma expiry_is_now_plus_lifetime_minus_margin_witness :
  exists ev,
    get_wiz_token (mkEnv t0 t0 (reply_3600 (PStr "abc")) upstream_ok) token_cache =
      (Ok (PStr "abc"),
       mkCache (PStr "abc") (Some (t0 + 3600 * us_per_second - 60 * us_per_second)),
       ev).
Proof.
  apply (proj1 (expiry_is_now_plus_lifetime_minus_margin
                  (mkEnv t0 t0 (reply_3600 (PStr "abc")) upstream_ok) token_cache
                  (mkHttp 200 "<token document>"
                     (Some (PDict [("access_token", PStr "abc");
                                   ("expires_in", PInt 3600)])))
                  [("access_token", PStr "abc"); ("expires_in", PInt 3600)]
                  (PStr "abc")
                  eq_refl eq_refl eq_refl eq_refl eq_refl) 3600).
  - reflexivity.
  - exact lifetime_3600_at_t0.
Defined.

(** ** Running [proxy_graphql] *)


(** Token resolution never talks to the GraphQL API. *)
Lemma get_wiz_token_never_forwards (w : env) (c : cache) :
  forwarded (snd (get_wiz_token w c)) = false.
Proof.
  run. repeat split_match; reflexivity.
Qed.

(** The handler never raises: every failure becomes a response. *)
Lemma proxy_graphql_total (req : request) (w : env) (c : cache) :
  exists resp c' ev, proxy_graphql req w c = (Ok resp, c', ev).
Proof.
  unfold proxy_graphql.
  destruct (method req =? "OPTIONS")%string; [repeat eexists|]. run_handler.
  destruct (get_wiz_token w c) as [[[tok | e] c1] ev1]; [|repeat eexists].
  destruct (get_json req) as [q | e]; [|repeat eexists].
  destruct (upstream_reply w); repeat eexists.
Qed.

(** With a token and a parsed body, the handler forwards and relays. *)
Lemma proxy_graphql_forwards (req : request) (w : env) (c c1 : cache)
    (tok : pyval) (q : jsonv) (ev1 : list event) :
  method req = "POST" ->
  get_wiz_token w c = (Ok tok, c1, ev1) ->
  get_json req = Ok q ->
  proxy_graphql req w c =
    match upstream_reply w with
    | Replied r =>
        (Ok (mkResponse (Bytes (content r)) (status_code r)
               [("Content-Type", "application/json");
                ("Access-Control-Allow-Origin", "*")]),
         c1, ev1 ++ [LogProxying; UpstreamPost tok q])
    | NetFail msg =>
        (Ok (jsonify (JsonError (ConnectionError msg)) 500),
         c1, ev1 ++ [LogProxying; UpstreamPost tok q;
                     LogProxyError (ConnectionError msg)])
    end.
Proof.
  intros Hm Hg Hq. unfold proxy_graphql. rewrite Hm. run_handler.
  rewrite Hg, Hq. destruct (upstream_reply w); simpl;
    rewrite <- ?app_assoc; reflexivity.
Qed.

(** Any failure before the upstream call becomes a 500 and stops there. *)
Lemma proxy_graphql_auth_failed (req : request) (w : env) (c c1 : cache)
    (e : exn) (ev1 : list event) :
  method req = "POST" ->
  get_wiz_token w c = (Raise e, c1, ev1) ->
  proxy_graphql req w c =
    (Ok (jsonify (JsonError e) 500), c1, ev1 ++ [LogProxyError e]).
Proof.
  intros Hm Hg. unfold proxy_graphql. rewrite Hm. run_handler.
  rewrite Hg. simpl. rewrite ?app_nil_r. reflexivity.
Qed.

(** ** Pass-through fidelity *)

(** C3.  For every upstream HTTP response with body [B] and status [S],
    whatever they are, the response to the caller has body exactly [B] and
    status exactly [S], and carries [Access-Control-Allow-Origin: *]. *)
Theorem pass_through_fidelity (req : request) (w : env) (c c1 : cache)
    (tok : pyval) (q : jsonv) (ev1 : list event) (S : Z) (B : string) (j : option pyval) :
  method req = "POST" ->
  get_wiz_token w c = (Ok tok, c1, ev1) ->
  get_json req = Ok q ->
  upstream_reply w = Replied (mkHttp S B j) ->
  exists resp ev,
    proxy_graphql req w c = (Ok resp, c1, ev) /\
    introspection req w c = (Ok resp, c1, ev) /\
    resp_body resp = Bytes B /\
    resp_status resp = S /\
    In ("Access-Control-Allow-Origin", "*") (resp_headers resp).
Proof.
  intros Hm Hg Hq Hu.
  pose proof (proxy_graphql_forwards req w c c1 tok q ev1 Hm Hg Hq) as H.
  rewrite Hu in H. simpl in H.
  eexists. eexists. split; [exact H|]. split; [exact H|].
  simpl. auto.
Qed.

Lemma pass_through_fidelity_witness :
  exists resp ev,
    proxy_graphql post_typename world_ok token_cache =
      (Ok resp, mkCache (PStr "abc") (Some (t0 + 3540 * us_per_second)), ev) /\
    introspection post_typename world_ok token_cache =
      (Ok resp, mkCache (PStr "abc") (Some (t0 + 3540 * us_per_second)), ev) /\
    resp_body resp = Bytes "<upstream body>" /\
    resp_status resp = 200 /\
    In ("Access-Control-Allow-Origin", "*") (resp_headers resp).
Proof.
  apply (pass_through_fidelity post_typename world_ok token_cache
           (mkCache (PStr "abc") (Some (t0 + 3540 * us_per_second)))
           (PStr "abc") (JObj [("query", JStr "{ __typename }")])
           [LogFetching; AuthPost; LogRefreshed (t0 + 3540 * us_per_second)]
           200 "<upstream body>" None).
  - reflexivity.
  - reflexivity.
  - reflexivity.
  - reflexivity.
Defined.

(** ** No forwarding without a token *)






(** What the handler does at that input. *)
Example null_token_run :
  proxy_graphql post_typename (mkEnv t0 t0 (reply_3600 PNone) upstream_ok)
    token_cache =
    (Ok (mkResponse (Bytes "<upstream body>") 200
           [("Content-Type", "application/json");
            ("Access-Control-Allow-Origin", "*")]),
     mkCache PNone (Some (t0 + 3540 * us_per_second)),
     [LogFetching; AuthPost; LogRefreshed (t0 + 3540 * us_per_second);
      LogProxying; UpstreamPost PNone (JObj [("query", JStr "{ __typename }")])]).
Proof. reflexivity. Qed.

(** Whatever reaches the upstream API carries the token that
    [get_wiz_token] returned. *)
Lemma upstream_post_carries_token (req : request) (w : env) (c c' : cache)
    (res : result response) (ev : list event) (b : pyval) (p : jsonv) :
  proxy_graphql req w c = (res, c', ev) ->
  In (UpstreamPost b p) ev ->
  exists c1 ev1, get_wiz_token w c = (Ok b, c1, ev1) /\ get_json req = Ok p.
Proof.
  unfold proxy_graphql.
  destruct (method req =? "OPTIONS")%string.
  { unfold ret. intros H Hin. inversion H; subst. contradiction Hin. }
  run_handler.
  pose proof (get_wiz_token_never_forwards w c) as Hn.
  destruct (get_wiz_token w c) as [[[tok | e] c1] ev1]; simpl in Hn.
  - assert (Hno : ~ In (UpstreamPost b p) ev1).
    { intros Hin. unfold forwarded in Hn.
      assert (existsb is_upstream ev1 = true)
        by (apply existsb_exists; eexists; split; [exact Hin | reflexivity]).
      congruence. }
    destruct (get_json req) as [q | e].
    + destruct (upstream_reply w); simpl; intros H Hin; inversion H; subst;
        in_events Hin; inversion Hin; subst; eauto.
    + simpl. intros H Hin. inversion H; subst. in_events Hin.
  - simpl. intros H Hin. inversion H; subst. in_events Hin.
    exfalso. unfold forwarded in Hn.
    assert (existsb is_upstream ev1 = true)
      by (apply existsb_exists; eexists; split; [exact Hin | reflexivity]).
    congruence.
Qed.

(** ** CORS *)

(** C5.  The responses of the error paths do not carry
    [Access-Control-Allow-Origin]: a POST answered while the identity provider
    replies 401 (AuthFailed), and one answered while the GraphQL API is
    unreachable (UpstreamFailed), on both routes. *)
Theorem error_responses_lack_cors_header :
  (exists resp c ev,
      proxy_graphql post_typename world_denied token_cache = (Ok resp, c, ev) /\
      introspection post_typename world_denied token_cache = (Ok resp, c, ev) /\
      resp_status resp = 500 /\
      resp_headers resp = [("Content-Type", "application/json")] /\
      has_header "Access-Control-Allow-Origin" (resp_headers resp) = false)
  /\
  (exists resp c ev,
      proxy_graphql post_typename world_upstream_down token_cache = (Ok resp, c, ev) /\
      introspection post_typename world_upstream_down token_cache = (Ok resp, c, ev) /\
      resp_status resp = 500 /\
      resp_headers resp = [("Content-Type", "application/json")] /\
      has_header "Access-Control-Allow-Origin" (resp_headers resp) = false).
Proof.
  split; eexists; eexists; eexists;
    (split; [reflexivity|]); (split; [reflexivity|]); repeat split.
Qed.

(** The relayed and the preflight responses do carry it. *)
Lemma relayed_response_has_cors_header (req : request) (w : env) (c c1 : cache)
    (tok : pyval) (q : jsonv) (ev1 : list event) (r : http_response) :
  method req = "POST" ->
  get_wiz_token w c = (Ok tok, c1, ev1) ->
  get_json req = Ok q ->
  upstream_reply w = Replied r ->
  exists resp ev,
    proxy_graphql req w c = (Ok resp, c1, ev) /\
    has_header "Access-Control-Allow-Origin" (resp_headers resp) = true.
Proof.
  intros Hm Hg Hq Hu.
  pose proof (proxy_graphql_forwards req w c c1 tok q ev1 Hm Hg Hq) as H.
  rewrite Hu in H. eexists. eexists. split; [exact H | reflexivity].
Qed.

(** C6.  An OPTIONS request is answered 200 with the three CORS headers; no
    token is resolved, nothing is sent to the provider or upstream (no event
    at all), and the token cache is left as it was. *)
Theorem preflight_isolation (req : request) (w : env) (c : cache) :
  method req = "OPTIONS" ->
  exists resp,
    proxy_graphql req w c = (Ok resp, c, []) /\
    resp_status resp = 200 /\
    resp_body resp = Empty /\
    In ("Access-Control-Allow-Origin", "*") (resp_headers resp) /\
    In ("Access-Control-Allow-Methods", "POST, OPTIONS") (resp_headers resp) /\
    In ("Access-Control-Allow-Headers", "Content-Type, Authorization")
       (resp_headers resp).
Proof.
  intros Hm. unfold proxy_graphql. rewrite Hm. simpl.
  eexists. split; [reflexivity|]. simpl. auto 10.
Qed.

Lemma preflight_isolation_witness :
  exists resp,
    proxy_graphql (mkRequest "OPTIONS" "<none>" (Raise (BadRequest "no body")))
                  world_denied token_cache = (Ok resp, token_cache, []) /\
    resp_status resp = 200 /\
    resp_body resp = Empty /\
    In ("Access-Control-Allow-Origin", "*") (resp_headers resp) /\
    In ("Access-Control-Allow-Methods", "POST, OPTIONS") (resp_headers resp) /\
    In ("Access-Control-Allow-Headers", "Content-Type, Authorization")
       (resp_headers resp).
Proof.
  apply (preflight_isolation
           (mkRequest "OPTIONS" "<none>" (Raise (BadRequest "no body")))
           world_denied token_cache).
  reflexivity.
Defined.

(** ** The inbound body *)



(** A body that parses and cannot be encoded again: [{"x": NaN}].  The
    call is made, it raises, the caller receives a 500. *)
Example nan_body_is_answered_500 :
  proxy_graphql
    (mkRequest "POST" "<x: NaN>" (Ok (JObj [("x", JFloat S754_nan)])))
    (mkEnv t0 t0 (reply_3600 (PStr "abc"))
       (NetFail "Out of range float values are not JSON compliant"))
    token_cache =
    (Ok (jsonify
           (JsonError
              (ConnectionError "Out of range float values are not JSON compliant"))
           500),
     mkCache (PStr "abc") (Some (t0 + 3540 * us_per_second)),
     [LogFetching; AuthPost; LogRefreshed (t0 + 3540 * us_per_second);
      LogProxying; UpstreamPost (PStr "abc") (JObj [("x", JFloat S754_nan)]);
      LogProxyError
        (ConnectionError "Out of range float values are not JSON compliant")]).
Proof. reflexivity. Qed.


(** ** Failed acquisitions leave the cache alone *)

(** Whenever [get_wiz_token] raises a [RequestException], the cache is the
    one it was given. *)
Lemma request_exception_keeps_cache (w : env) (c c' : cache) (e : exn)
    (ev : list event) :
  get_wiz_token w c = (Raise e, c', ev) ->
  is_RequestException e = true ->
  c' = c.
Proof.
  run. repeat split_match; intros H He; inversion H; subst;
    try reflexivity; discriminate He.
Qed.

(** The failures past line 62 are of another kind: an [expires_in] that is
    not a number raises [TypeError] after the new token was written, next to
    the old expiry. *)
Example bad_expires_in_overwrites_token :
  get_wiz_token
    (mkEnv (t0 + 4000 * us_per_second) (t0 + 4000 * us_per_second)
       (Replied (mkHttp 200 "<token document>"
                   (Some (PDict [("access_token", PStr "new");
                                 ("expires_in", PStr "soon")]))))
       upstream_ok)
    (mkCache (PStr "abc") (Some (t0 + 3540 * us_per_second)))
  = (Raise TypeError,
     mkCache (PStr "new") (Some (t0 + 3540 * us_per_second)),
     [LogFetching; AuthPost]).
Proof. reflexivity. Qed.

(** C9.  When the identity provider answers with a 4xx or 5xx status, or with
    a body that is not JSON, [get_wiz_token] raises and the cache holds
    exactly what it held before the call. *)
Theorem failed_acquisition_keeps_cache (w : env) (c : cache) (r : http_response) :
  cache_check c (now_check w) = None ->
  auth_reply w = Replied r ->
  (400 <=? status_code r) && (status_code r <? 600) = true \/ json r = None ->
  exists e ev,
    get_wiz_token w c = (Raise e, c, ev) /\
    (e = HTTPError (status_code r) \/ e = JSONDecodeError) /\
    access_token (snd (fst (get_wiz_token w c))) = access_token c /\
    expires_at (snd (fst (get_wiz_token w c))) = expires_at c.
Proof.
  intros Hmiss Hr Hfail. run. rewrite Hmiss, Hr. run.
  destruct ((400 <=? status_code r) && (status_code r <? 600)) eqn:Hst; run.
  - eexists. eexists. split; [reflexivity|]. simpl. auto.
  - destruct Hfail as [Hfail | Hj]; [discriminate Hfail|].
    rewrite Hj. run. eexists. eexists. split; [reflexivity|]. simpl. auto.
Qed.

Lemma failed_acquisition_keeps_cache_witness :
  exists e ev,
    get_wiz_token world_denied token_cache = (Raise e, token_cache, ev) /\
    (e = HTTPError 401 \/ e = JSONDecodeError) /\
    access_token (snd (fst (get_wiz_token world_denied token_cache))) = PNone /\
    expires_at (snd (fst (get_wiz_token world_denied token_cache))) = None.
Proof.
  apply (failed_acquisition_keeps_cache world_denied token_cache
           (mkHttp 401 "<denied>" None)).
  - reflexivity.
  - reflexivity.
  - left. reflexivity.
Defined.



(** * Further properties of the proxy *)

(** The cache check succeeds exactly on a truthy token with an expiry in
    the future, and then yields the cached token. *)
Lemma cache_check_Some (c : cache) (now : Z) (tok : pyval) :
  cache_check c now = Some tok <->
  tok = access_token c /\ truthy (access_token c) = true /\
  exists ea, expires_at c = Some ea /\ now < ea.
Proof.
  unfold cache_check. destruct c as [t e]. simpl. split.
  - destruct (truthy t); [|discriminate].
    destruct e as [ea|]; [|discriminate].
    destruct (now <? ea) eqn:Hlt; [|discriminate].
    intros H. inversion H; subst. apply Z.ltb_lt in Hlt. eauto.
  - intros (-> & Ht & ea & -> & Hlt). rewrite Ht.
    apply Z.ltb_lt in Hlt. rewrite Hlt. reflexivity.
Qed.

(** X1.  Whatever [get_wiz_token] returns is the token the cache holds
    after the call, on a hit and after an acquisition alike. *)
Theorem returned_token_is_cached (w : env) (c c' : cache) (tok : pyval)
    (ev : list event) :
  get_wiz_token w c = (Ok tok, c', ev) ->
  access_token c' = tok.
Proof.
  destruct (cache_check c (now_check w)) as [t|] eqn:Hc.
  - rewrite (get_wiz_token_hit w c t Hc). intros H. inversion H; subst.
    apply cache_check_Some in Hc. symmetry. apply Hc.
  - destruct c as [t0' e0]. run. rewrite Hc.
    repeat split_match; intros H; inversion H; reflexivity.
Qed.

Lemma returned_token_is_cached_witness :
  access_token (mkCache (PStr "abc") (Some (t0 + 3540 * us_per_second))) = PStr "abc".
Proof.
  apply (returned_token_is_cached world_ok token_cache _ (PStr "abc")
           [LogFetching; AuthPost; LogRefreshed (t0 + 3540 * us_per_second)]).
  reflexivity.
Defined.

(** X2.  A call of [get_wiz_token] that raises never changes the cached
    expiry, and changes nothing at all when the exception is a
    [RequestException] or a [KeyError]. *)
Theorem failed_call_keeps_expiry (w : env) (c c' : cache) (e : exn)
    (ev : list event) :
  get_wiz_token w c = (Raise e, c', ev) ->
  expires_at c' = expires_at c /\
  (is_RequestException e = true \/ (exists k, e = KeyError k) -> c' = c).
Proof.
  destruct c as [t0' e0]. run.
  repeat split_match; intros H; inversion H; subst; simpl;
    (split; [reflexivity|]); intros [He | [k He]];
    try reflexivity; discriminate He.
Qed.

Lemma failed_call_keeps_expiry_witness :
  expires_at token_cache = expires_at token_cache /\
  (is_RequestException (HTTPError 401) = true \/
   (exists k, HTTPError 401 = KeyError k) -> token_cache = token_cache).
Proof.
  apply (failed_call_keeps_expiry world_denied token_cache token_cache
           (HTTPError 401)
           [LogFetching; AuthPost; LogTokenFailed (HTTPError 401)]).
  reflexivity.
Defined.



Lemma count_auth_app (ev1 ev2 : list event) :
  count_auth (ev1 ++ ev2) = (count_auth ev1 + count_auth ev2)%nat.
Proof. unfold count_auth. rewrite filter_app, length_app. reflexivity. Qed.

Lemma count_upstream_app (ev1 ev2 : list event) :
  count_upstream (ev1 ++ ev2) = (count_upstream ev1 + count_upstream ev2)%nat.
Proof. unfold count_upstream. rewrite filter_app, length_app. reflexivity. Qed.

(** Token resolution calls the provider at most once and the API never. *)
Lemma get_wiz_token_calls (w : env) (c : cache) :
  (count_auth (snd (get_wiz_token w c)) <= 1)%nat /\
  count_upstream (snd (get_wiz_token w c)) = 0%nat.
Proof.
  run. repeat split_match; cbv; split; auto.
Qed.

Lemma at_most_one_call_each_aux (req : request) (w : env) (c : cache) :
  (count_auth (snd (proxy_graphql req w c)) <= 1)%nat.
Proof.
  unfold proxy_graphql.
  destruct (method req =? "OPTIONS")%string; [simpl; auto|]. run_handler.
  destruct (get_wiz_token_calls w c) as [Ha Hu].
  destruct (get_wiz_token w c) as [[[tok | e] c1] ev1]; cbn [snd] in Ha, Hu.
  - destruct (get_json req) as [q | e];
      [destruct (upstream_reply w)|]; cbn [snd];
      rewrite ?count_auth_app; unfold count_auth in *; simpl; lia.
  - cbn [snd]. rewrite count_auth_app. unfold count_auth in *. simpl. lia.
Qed.

(** X4.  No retry: handling one request calls the identity provider at
    most once and the GraphQL API at most once. *)
Theorem at_most_one_call_each (req : request) (w : env) (c : cache) :
  (count_auth (snd (proxy_graphql req w c)) <= 1)%nat /\
  (count_upstream (snd (proxy_graphql req w c)) <= 1)%nat.
Proof.
  split; [apply at_most_one_call_each_aux|].
  unfold proxy_graphql.
  destruct (method req =? "OPTIONS")%string; [simpl; auto|]. run_handler.
  destruct (get_wiz_token_calls w c) as [Ha Hu].
  destruct (get_wiz_token w c) as [[[tok | e] c1] ev1]; cbn [snd] in Ha, Hu.
  - destruct (get_json req) as [q | e];
      [destruct (upstream_reply w)|]; cbn [snd];
      rewrite ?count_upstream_app, Hu; unfold count_upstream; simpl; lia.
  - cbn [snd]. rewrite count_upstream_app, Hu. unfold count_upstream. simpl. lia.
Qed.

(** The handler leaves the cache as token resolution left it. *)
Lemma proxy_graphql_cache (req : request) (w : env) (c : cache) :
  method req = "POST" ->
  snd (fst (proxy_graphql req w c)) = snd (fst (get_wiz_token w c)).
Proof.
  intros Hm. unfold proxy_graphql. rewrite Hm. run_handler.
  destruct (get_wiz_token w c) as [[[tok | e] c1] ev1]; [|reflexivity].
  destruct (get_json req) as [q | e]; [|reflexivity].
  destruct (upstream_reply w); reflexivity.
Qed.

(** X5.  Token reuse across requests: after a request that acquired a
    truthy token with lifetime [L], a following request that arrives before
    the stored expiry is forwarded with that token, without any call to the
    identity provider, and leaves the cache as it is. *)
Theorem next_request_reuses_token (req1 req2 : request) (w1 w2 : env)
    (c : cache) (tok : pyval) (q : jsonv) (L : Z) :
  method req1 = "POST" ->
  method req2 = "POST" ->
  cache_check c (now_check w1) = None ->
  provider_reports w1 tok L ->
  lifetime_in_range (now_store w1) L ->
  truthy tok = true ->
  now_check w2 < now_store w1 + (L - 60) * us_per_second ->
  get_json req2 = Ok q ->
  let c1 := snd (fst (proxy_graphql req1 w1 c)) in
  exists resp ev,
    proxy_graphql req2 w2 c1 =
      (Ok resp, c1, [LogUsingCached; LogProxying; UpstreamPost tok q] ++ ev) /\
    count_auth ([LogUsingCached; LogProxying; UpstreamPost tok q] ++ ev) = 0%nat.
Proof.
  intros Hm1 Hm2 Hmiss Hp Hrange Ht Hq Hj c1.
  assert (Hc1 : c1 = mkCache tok (Some (now_store w1 + (L - 60) * us_per_second))).
  { unfold c1. rewrite (proxy_graphql_cache req1 w1 c Hm1).
    rewrite (get_wiz_token_acquires w1 c tok L Hmiss Hp Hrange). reflexivity. }
  assert (Hhit : cache_check c1 (now_check w2) = Some tok).
  { apply cache_check_Some. rewrite Hc1. simpl. eauto. }
  pose proof (proxy_graphql_forwards req2 w2 c1 c1 tok q [LogUsingCached] Hm2
                (get_wiz_token_hit w2 c1 tok Hhit) Hj) as H.
  rewrite H. destruct (upstream_reply w2); eexists; eexists.
  - instantiate (1 := [LogProxyError (ConnectionError msg)]).
    split; reflexivity.
  - instantiate (1 := []). split; reflexivity.
Qed.

Lemma next_request_reuses_token_witness :
  let c1 := snd (fst (proxy_graphql post_typename world_ok token_cache)) in
  exists resp ev,
    proxy_graphql post_typename
      (mkEnv (t0 + 3000 * us_per_second) (t0 + 3000 * us_per_second)
         (NetFail "unreachable") upstream_ok) c1 =
      (Ok resp, c1,
       [LogUsingCached; LogProxying;
        UpstreamPost (PStr "abc") (JObj [("query", JStr "{ __typename }")])] ++ ev) /\
    count_auth
      ([LogUsingCached; LogProxying;
        UpstreamPost (PStr "abc") (JObj [("query", JStr "{ __typename }")])] ++ ev)
    = 0%nat.
Proof.
  apply (next_request_reuses_token post_typename post_typename world_ok
           (mkEnv (t0 + 3000 * us_per_second) (t0 + 3000 * us_per_second)
              (NetFail "unreachable") upstream_ok)
           token_cache (PStr "abc") (JObj [("query", JStr "{ __typename }")]) 3600).
  - reflexivity.
  - reflexivity.
  - reflexivity.
  - apply reply_3600_reports.
  - exact lifetime_3600_at_t0.
  - reflexivity.
  - reflexivity.
  - reflexivity.
Defined.

(** On a miss, a call that returns has been answered by the provider with
    the token it returns. *)
Lemma get_wiz_token_miss_ok_inv (w : env) (c c' : cache) (tok : pyval)
    (ev : list event) :
  cache_check c (now_check w) = None ->
  get_wiz_token w c = (Ok tok, c', ev) ->
  In AuthPost ev /\
  exists r d,
    auth_reply w = Replied r /\ json r = Some (PDict d) /\
    lookup "access_token" d = Some tok.
Proof.
  intros Hmiss. destruct c as [t0' e0]. run. rewrite Hmiss.
  destruct (auth_reply w) as [msg | r] eqn:Hr; run; [discriminate|].
  destruct ((400 <=? status_code r) && (status_code r <? 600)); run;
    [discriminate|].
  destruct (json r) as [[| | | | | d]|] eqn:Hj; run; try discriminate.
  destruct (lookup "access_token" d) as [t|] eqn:Ht; run; [|discriminate].
  repeat split_match; intros H; inversion H; subst;
    (split; [simpl; auto | exists r, d; auto]).
Qed.

(** X6.  An expired or absent cached token is never forwarded: when the
    cache check fails, whatever the handler sends upstream carries a token
    that the identity provider returned during this very request. *)
Theorem stale_token_never_forwarded (req : request) (w : env) (c c' : cache)
    (res : result response) (ev : list event) (b : pyval) (p : jsonv) :
  cache_check c (now_check w) = None ->
  proxy_graphql req w c = (res, c', ev) ->
  In (UpstreamPost b p) ev ->
  count_auth ev = 1%nat /\
  exists r d,
    auth_reply w = Replied r /\ json r = Some (PDict d) /\
    lookup "access_token" d = Some b.
Proof.
  intros Hmiss Hrun Hin.
  destruct (upstream_post_carries_token req w c c' res ev b p Hrun Hin)
    as (c1 & ev1 & Hg & Hq).
  destruct (get_wiz_token_miss_ok_inv w c c1 b ev1 Hmiss Hg) as [Ha Hprov].
  split; [|exact Hprov].
  assert (Hle : (count_auth ev <= 1)%nat).
  { pose proof (at_most_one_call_each_aux req w c) as H. rewrite Hrun in H.
    exact H. }
  assert (Hge : (1 <= count_auth ev)%nat).
  { revert Hrun. unfold proxy_graphql.
    destruct (method req =? "OPTIONS")%string.
    - unfold ret. intros H. inversion H; subst. contradiction Hin.
    - run_handler. rewrite Hg, Hq.
      assert (H1 : (1 <= count_auth ev1)%nat).
      { unfold count_auth. clear - Ha. induction ev1 as [|x l IH]; [contradiction|].
        destruct Ha as [-> | Ha]; simpl; [lia|].
        specialize (IH Ha). destruct (is_auth x); simpl; lia. }
      destruct (upstream_reply w); simpl; intros H; inversion H; subst;
        rewrite !count_auth_app; lia. }
  lia.
Qed.

Lemma stale_token_never_forwarded_witness :
  count_auth
    [LogFetching; AuthPost; LogRefreshed (t0 + 3540 * us_per_second); LogProxying;
     UpstreamPost (PStr "abc") (JObj [("query", JStr "{ __typename }")])] = 1%nat /\
  exists r d,
    auth_reply world_ok = Replied r /\ json r = Some (PDict d) /\
    lookup "access_token" d = Some (PStr "abc").
Proof.
  apply (stale_token_never_forwarded post_typename world_ok token_cache
           (mkCache (PStr "abc") (Some (t0 + 3540 * us_per_second)))
           (Ok (mkResponse (Bytes "<upstream body>") 200
                  [("Content-Type", "application/json");
                   ("Access-Control-Allow-Origin", "*")]))
           _ (PStr "abc") (JObj [("query", JStr "{ __typename }")])).
  - reflexivity.
  - reflexivity.
  - simpl. auto 10.
Defined.






(** X10.  A cache without a truthy token or without an expiry never
    answers: every call goes to the identity provider, at whatever time.
    This is the state of a fresh process, and the state a falsy token
    leaves. *)
Theorem cold_cache_always_acquires (w : env) (c : cache) :
  truthy (access_token c) = false \/ expires_at c = None ->
  exists res c' ev,
    get_wiz_token w c = (res, c', LogFetching :: AuthPost :: ev).
Proof.
  intros H. apply get_wiz_token_miss. unfold cache_check.
  destruct H as [-> | ->]; [reflexivity|].
  destruct (truthy (access_token c)); reflexivity.
Qed.

Lemma cold_cache_always_acquires_witness :
  exists res c' ev,
    get_wiz_token world_denied token_cache = (res, c', LogFetching :: AuthPost :: ev).
Proof.
  apply (cold_cache_always_acquires world_denied token_cache).
  left. reflexivity.
Defined.

(** * Properties of the sync job *)

(** X11.  [fetch_wiz_issues] returns [v] exactly when the proxy answered
    with a status outside 400..599 and a JSON object whose ["data"] is an
    object holding [v] under ["issuesV2"]; it sends one POST carrying the
    query and nothing else. *)
Theorem fetch_returns_iff (w : Sync.world) (n : nat) (v : pyval) :
  Sync.fetch_wiz_issues w n =
    (Sync.Done v, n, [Sync.ProxyPost (PDict [("query", PStr Sync.query)])])
  <->
  exists r doc data,
    Sync.proxy_reply w = Replied r /\
    (400 <=? status_code r) && (status_code r <? 600) = false /\
    json r = Some (PDict doc) /\
    lookup "data" doc = Some (PDict data) /\
    lookup "issuesV2" data = Some v.
Proof.
  split.
  - run_sync.
    destruct (Sync.proxy_reply w) as [msg | r]; run_sync; [discriminate|].
    destruct ((400 <=? status_code r) && (status_code r <? 600)) eqn:Hst;
      run_sync; [discriminate|].
    destruct (json r) as [[| | | | | doc]|] eqn:Hj; run_sync; try discriminate.
    destruct (lookup "data" doc) as [[| | | | | data]|] eqn:Hd; run_sync;
      try discriminate.
    destruct (lookup "issuesV2" data) as [x|] eqn:Hi; run_sync;
      [|discriminate].
    intros H. inversion H; subst. exists r, doc, data. auto.
  - intros (r & doc & data & Hr & Hst & Hj & Hd & Hi). run_sync.
    rewrite Hr. run_sync. rewrite Hst. run_sync. rewrite Hj. run_sync.
    rewrite Hd. run_sync. rewrite Hi. reflexivity.
Qed.

Lemma fetch_returns_iff_witness :
  Sync.fetch_wiz_issues
    (Sync.mkWorld
       (Replied (mkHttp 200 "<issues document>"
                   (Some (PDict [("data",
                                  PDict [("issuesV2",
                                          PDict [("nodes", PList []);
                                                 ("totalCount", PInt 0)])])]))))
       None (fun _ => None)) 0%nat =
    (Sync.Done (PDict [("nodes", PList []); ("totalCount", PInt 0)]), 0%nat,
     [Sync.ProxyPost (PDict [("query", PStr Sync.query)])]).
Proof.
  apply (proj2 (fetch_returns_iff _ 0%nat _)).
  eexists. eexists. eexists.
  split; [reflexivity|]. split; [reflexivity|]. split; [reflexivity|].
  split; reflexivity.
Defined.

(** The fetch never calls the database. *)
Lemma fetch_no_db_call (w : Sync.world) (n : nat) :
  db_calls (snd (Sync.fetch_wiz_issues w n)) = [] /\
  snd (fst (Sync.fetch_wiz_issues w n)) = n.
Proof.
  run_sync.
  destruct (Sync.proxy_reply w) as [msg | r]; run_sync; [split; reflexivity|].
  destruct ((400 <=? status_code r) && (status_code r <? 600)); run_sync;
    [split; reflexivity|].
  destruct (json r) as [[| | | | | doc]|]; run_sync; try (split; reflexivity).
  destruct (lookup "data" doc) as [[| | | | | data]|]; run_sync;
    try (split; reflexivity).
  destruct (lookup "issuesV2" data); split; reflexivity.
Qed.

(** X12.  When the fetch fails, for whatever reason, [main] logs the
    failure and raises the same exception without opening a database
    connection: the table is neither truncated nor written. *)
Theorem failed_fetch_touches_no_database (w : Sync.world) (n n' : nat)
    (e : Sync.sync_exn) (ev : list Sync.event) :
  Sync.fetch_wiz_issues w n = (Sync.Fail e, n', ev) ->
  Sync.main w n =
    (Sync.Fail e, n', [Sync.LogStarting] ++ ev ++ [Sync.LogSyncFailed e]) /\
  db_calls ([Sync.LogStarting] ++ ev ++ [Sync.LogSyncFailed e]) = [].
Proof.
  intros H. split.
  - unfold Sync.main, Sync.try_except, Sync.bind, Sync.emit, Sync.raise.
    rewrite H. simpl. rewrite ?app_nil_r. reflexivity.
  - pose proof (fetch_no_db_call w n) as [Hdb _]. rewrite H in Hdb.
    simpl in Hdb. unfold db_calls in *. rewrite !filter_app, Hdb.
    reflexivity.
Qed.

Lemma failed_fetch_touches_no_database_witness :
  let w := Sync.mkWorld
             (Replied (mkHttp 200 "<errors document>"
                         (Some (PDict [("errors", PList [PStr "denied"])]))))
             None (fun _ => None) in
  let ev := [Sync.ProxyPost (PDict [("query", PStr Sync.query)])] in
  Sync.main w 0%nat =
    (Sync.Fail (Sync.Py (KeyError "data")), 0%nat,
     [Sync.LogStarting] ++ ev ++ [Sync.LogSyncFailed (Sync.Py (KeyError "data"))]) /\
  db_calls ([Sync.LogStarting] ++ ev
            ++ [Sync.LogSyncFailed (Sync.Py (KeyError "data"))]) = [].
Proof.
  intros w ev.
  apply (failed_fetch_touches_no_database w 0%nat 0%nat
           (Sync.Py (KeyError "data")) ev).
  reflexivity.
Defined.

(** A reply with a 4xx or 5xx status makes the fetch raise [HTTPError]. *)
Lemma fetch_error_status (w : Sync.world) (n : nat) (r : http_response) :
  Sync.proxy_reply w = Replied r ->
  (400 <=? status_code r) && (status_code r <? 600) = true ->
  Sync.fetch_wiz_issues w n =
    (Sync.Fail (Sync.Py (HTTPError (status_code r))), n,
     [Sync.ProxyPost (PDict [("query", PStr Sync.query)])]).
Proof.
  intros Hr Hst. run_sync. rewrite Hr. run_sync. rewrite Hst. reflexivity.
Qed.

(** X13.  End to end with the proxy: when the proxy's token acquisition
    fails, the sync job, receiving the handler's response, raises
    [HTTPError 500] and makes no call on the database. *)
Theorem proxy_auth_failure_stops_sync (req : request) (w : env) (c c' : cache)
    (e : exn) (c1 : cache) (ev1 ev : list event) (resp : response)
    (loads : string -> option pyval) (r : http_response) (sw : Sync.world)
    (n : nat) :
  method req = "POST" ->
  get_wiz_token w c = (Raise e, c1, ev1) ->
  proxy_graphql req w c = (Ok resp, c', ev) ->
  served loads resp r ->
  Sync.proxy_reply sw = Replied r ->
  exists sev,
    Sync.main sw n = (Sync.Fail (Sync.Py (HTTPError 500)), n, sev) /\
    db_calls sev = [].
Proof.
  intros Hm Hg Hrun (Hstatus & _ & _) Hr.
  rewrite (proxy_graphql_auth_failed req w c c1 e ev1 Hm Hg) in Hrun.
  inversion Hrun; subst. simpl in Hstatus.
  assert (Hf : Sync.fetch_wiz_issues sw n =
               (Sync.Fail (Sync.Py (HTTPError 500)), n,
                [Sync.ProxyPost (PDict [("query", PStr Sync.query)])])).
  { rewrite (fetch_error_status sw n r Hr); rewrite Hstatus; reflexivity. }
  eexists. split.
  - unfold Sync.main, Sync.try_except, Sync.bind, Sync.emit, Sync.raise.
    rewrite Hf. reflexivity.
  - reflexivity.
Qed.

Lemma proxy_auth_failure_stops_sync_witness :
  exists sev,
    Sync.main
      (Sync.mkWorld (Replied (mkHttp 500 "<error document>" None)) None
         (fun _ => None)) 0%nat =
      (Sync.Fail (Sync.Py (HTTPError 500)), 0%nat, sev) /\
    db_calls sev = [].
Proof.
  apply (proxy_auth_failure_stops_sync
           (mkRequest "POST" "<sync query>" (Ok (JObj [("query", JStr Sync.query)])))
           world_denied token_cache token_cache (HTTPError 401) token_cache
           [LogFetching; AuthPost; LogTokenFailed (HTTPError 401)]
           [LogFetching; AuthPost; LogTokenFailed (HTTPError 401);
            LogProxyError (HTTPError 401)]
           (jsonify (JsonError (HTTPError 401)) 500)
           (fun _ => None)
           (mkHttp 500 "<error document>" None)).
  - reflexivity.
  - reflexivity.
  - reflexivity.
  - split; [reflexivity|]. split; [reflexivity|]. intros b Hb. discriminate Hb.
  - reflexivity.
Defined.

(** X14.  The proxy is transparent to the sync job: when the handler
    relays an upstream reply, the fetch through the proxy gives what the
    same fetch would give on the upstream reply itself, and the upstream
    call carried the job's query. *)
Theorem fetch_through_proxy (req : request) (w : env) (c c1 c' : cache)
    (tok : pyval) (ev1 ev : list event) (u : http_response) (resp : response)
    (loads : string -> option pyval) (r : http_response)
    (connect_reply : option string) (db_reply : nat -> option string)
    (n : nat) :
  method req = "POST" ->
  get_json req = Ok (JObj [("query", JStr Sync.query)]) ->
  get_wiz_token w c = (Ok tok, c1, ev1) ->
  upstream_reply w = Replied u ->
  json u = loads (content u) ->
  proxy_graphql req w c = (Ok resp, c', ev) ->
  served loads resp r ->
  Sync.fetch_wiz_issues (Sync.mkWorld (Replied r) connect_reply db_reply) n =
  Sync.fetch_wiz_issues (Sync.mkWorld (Replied u) connect_reply db_reply) n
  /\
  In (UpstreamPost tok (JObj [("query", JStr Sync.query)])) ev.
Proof.
  intros Hm Hq Hg Hu Hloads Hrun (Hstatus & Hjson & Hbody).
  rewrite (proxy_graphql_forwards req w c c1 tok _ ev1 Hm Hg Hq), Hu in Hrun.
  inversion Hrun; subst. simpl in Hstatus.
  specialize (Hbody (content u) eq_refl).
  split.
  - run_sync. simpl. rewrite Hstatus, Hjson, Hbody, <- Hloads. reflexivity.
  - apply in_or_app. right. simpl. auto.
Qed.

Lemma fetch_through_proxy_witness :
  let doc := Some (PDict [("data", PDict [("issuesV2", PDict [("nodes", PList [])])])]) in
  let u := mkHttp 200 "<issues document>" doc in
  Sync.fetch_wiz_issues (Sync.mkWorld (Replied u) None (fun _ => None)) 0%nat =
  Sync.fetch_wiz_issues (Sync.mkWorld (Replied u) None (fun _ => None)) 0%nat
  /\
  In (UpstreamPost (PStr "abc") (JObj [("query", JStr Sync.query)]))
     [LogFetching; AuthPost; LogRefreshed (t0 + 3540 * us_per_second);
      LogProxying; UpstreamPost (PStr "abc") (JObj [("query", JStr Sync.query)])].
Proof.
  intros doc u.
  apply (fetch_through_proxy
           (mkRequest "POST" "<sync query>" (Ok (JObj [("query", JStr Sync.query)])))
           (mkEnv t0 t0 (reply_3600 (PStr "abc")) (Replied u))
           token_cache
           (mkCache (PStr "abc") (Some (t0 + 3540 * us_per_second)))
           (mkCache (PStr "abc") (Some (t0 + 3540 * us_per_second)))
           (PStr "abc")
           [LogFetching; AuthPost; LogRefreshed (t0 + 3540 * us_per_second)]
           _ u
           (mkResponse (Bytes "<issues document>") 200
              [("Content-Type", "application/json");
               ("Access-Control-Allow-Origin", "*")])
           (fun _ => doc) u None (fun _ => None) 0%nat).
  - reflexivity.
  - reflexivity.
  - reflexivity.
  - reflexivity.
  - reflexivity.
  - reflexivity.
  - split; [reflexivity|]. split; [reflexivity|].
    intros b Hb. inversion Hb. reflexivity.
Defined.

(** ** [sync_to_postgres] *)

Lemma committed_app (ev1 ev2 : list Sync.event) :
  committed (ev1 ++ ev2) = committed ev1 || committed ev2.
Proof. apply existsb_app. Qed.

Lemma never_commits_execute (w : Sync.world) (s : Sync.statement)
    (ps : list pyval) :
  never_commits (Sync.execute w s ps).
Proof.
  intros n. unfold Sync.execute. destruct (Sync.db_reply w n); reflexivity.
Qed.

Lemma never_commits_lift {A} (r : result A) : never_commits (Sync.lift r).
Proof. intros n. destruct r; reflexivity. Qed.

Lemma never_commits_bind {A B} (m : Sync.D A) (f : A -> Sync.D B) :
  never_commits m -> (forall a, never_commits (f a)) ->
  never_commits (Sync.bind m f).
Proof.
  intros Hm Hf n. unfold Sync.bind. specialize (Hm n).
  destruct (m n) as [[[a | e] n1] ev1]; simpl in *; [|exact Hm].
  specialize (Hf a n1). destruct (f a n1) as [[r n2] ev2]. simpl in *.
  rewrite committed_app, Hm, Hf. reflexivity.
Qed.

Lemma never_commits_for_each {A} (l : list A) (f : A -> Sync.D unit) :
  (forall x, never_commits (f x)) -> never_commits (Sync.for_each l f).
Proof.
  intros Hf. induction l as [|x l IH]; simpl.
  - intros n. reflexivity.
  - apply never_commits_bind; [apply Hf | intros _; exact IH].
Qed.

Lemma commits_iff_done_bind {A B} (m : Sync.D A) (f : A -> Sync.D B) :
  never_commits m -> (forall a, commits_iff_done (f a)) ->
  commits_iff_done (Sync.bind m f).
Proof.
  intros Hm Hf n. unfold Sync.bind. specialize (Hm n).
  destruct (m n) as [[[a | e] n1] ev1]; simpl in *.
  - specialize (Hf a n1). destruct (f a n1) as [[r n2] ev2]. simpl in *.
    rewrite committed_app, Hm. simpl. exact Hf.
  - rewrite Hm. split; [discriminate | intros [a Ha]; discriminate Ha].
Qed.

Lemma commits_iff_done_commit (w : Sync.world) (k : nat) :
  commits_iff_done (Sync.bind (Sync.commit w) (fun _ => Sync.emit (Sync.LogSynced k))).
Proof.
  intros n. unfold Sync.bind, Sync.commit, Sync.emit.
  destruct (Sync.db_reply w n); simpl; split; eauto; try discriminate.
  intros [a Ha]. discriminate Ha.
Qed.

(** The body of the [try] block commits exactly when it completes. *)
Lemma sync_body_commits_iff_done (w : Sync.world) (issues_data : pyval) :
  commits_iff_done
    (Sync.bind (Sync.execute w Sync.CreateTable []) (fun _ =>
     Sync.bind (Sync.execute w Sync.CreateIndexSeverity []) (fun _ =>
     Sync.bind (Sync.execute w Sync.CreateIndexStatus []) (fun _ =>
     Sync.bind (Sync.execute w Sync.TruncateIssues []) (fun _ =>
     Sync.bind (Sync.lift (subscript issues_data "nodes")) (fun nodes =>
     Sync.bind (Sync.lift (Sync.py_iter nodes)) (fun issues =>
     Sync.bind (Sync.for_each issues (fun issue =>
                  Sync.bind (Sync.lift (Sync.issue_params issue)) (fun params =>
                  Sync.execute w Sync.UpsertIssue params))) (fun _ =>
     Sync.bind (Sync.lift (subscript issues_data "totalCount")) (fun total =>
     Sync.bind (Sync.execute w Sync.UpsertMetrics [total]) (fun _ =>
     Sync.bind (Sync.commit w) (fun _ =>
     Sync.emit (Sync.LogSynced (List.length issues))))))))))))).
Proof.
  repeat (apply commits_iff_done_bind;
          [first [ apply never_commits_execute
                 | apply never_commits_lift
                 | apply never_commits_for_each; intros x;
                   apply never_commits_bind;
                   [apply never_commits_lift
                   | intros ps; apply never_commits_execute] ]
          | intros ?]).
  apply commits_iff_done_commit.
Qed.

(** X15.  All or nothing: [sync_to_postgres] commits exactly when it
    returns normally; whenever it raises, no commit has succeeded.  Once
    connected, its last call is always [conn.close()]; when the connection
    cannot be opened it raises at once. *)
Theorem commit_iff_success (w : Sync.world) (issues_data : pyval) (n : nat) :
  let run := Sync.sync_to_postgres w issues_data n in
  (committed (snd run) = true <-> fst (fst run) = Sync.Done tt) /\
  (Sync.connect_reply w = None ->
   exists ev0, snd run = Sync.Connect true :: ev0 ++ [Sync.Close]) /\
  (forall msg, Sync.connect_reply w = Some msg ->
   fst (fst run) = Sync.Fail (Sync.DatabaseError msg) /\
   snd run = [Sync.Connect false]).
Proof.
  unfold Sync.sync_to_postgres.
  match goal with
  | |- context [Sync.finally ?b _] => set (body := b)
  end.
  assert (Hbody : commits_iff_done body)
    by apply sync_body_commits_iff_done.
  specialize (Hbody n). clearbody body.
  cbv beta zeta delta [Sync.bind Sync.emit Sync.finally Sync.connect Sync.raise].
  destruct (Sync.connect_reply w) as [msg|].
  - simpl. split; [|split].
    + cbv. split; discriminate.
    + discriminate.
    + intros m Hm. inversion Hm; subst. cbv. auto.
  - destruct (body n) as [[r n1] evb]. simpl in *. split; [|split].
    + rewrite committed_app. simpl. rewrite orb_false_r.
      rewrite Hbody. split.
      * intros [[] Ha]. exact Ha.
      * intros Ha. exists tt. exact Ha.
    + intros _. exists evb. reflexivity.
    + discriminate.
Qed.

Lemma for_each_upserts (w : Sync.world) (nodes : list pyval)
    (rows : list (list pyval)) :
  (forall k, Sync.db_reply w k = None) ->
  Forall2 (fun issue ps => Sync.issue_params issue = Ok ps) nodes rows ->
  forall n,
    Sync.for_each nodes
      (fun issue =>
         Sync.bind (Sync.lift (Sync.issue_params issue)) (fun params =>
         Sync.execute w Sync.UpsertIssue params)) n =
    (Sync.Done tt, (List.length nodes + n)%nat,
     map (fun ps => Sync.Execute Sync.UpsertIssue ps true) rows).
Proof.
  intros Hdb H. induction H as [|issue ps nodes rows Hps _ IH]; intros n.
  - reflexivity.
  - simpl. unfold Sync.bind at 1. unfold Sync.bind at 1.
    rewrite Hps. unfold Sync.lift, Sync.execute. rewrite Hdb.
    rewrite IH. simpl. repeat f_equal. lia.
Qed.

(** X16.  A successful run: with the connection open, no database error,
    [nodes] a list of well-formed issues and [totalCount] present, the job
    creates the table and its two indexes, truncates, upserts one row per
    node in the order of the list, upserts the metrics with [totalCount],
    commits and closes, in this order and with nothing else. *)
Theorem sync_success_trace (w : Sync.world) (d : list (string * pyval))
    (nodes : list pyval) (rows : list (list pyval)) (total : pyval) (n : nat) :
  Sync.connect_reply w = None ->
  (forall k, Sync.db_reply w k = None) ->
  lookup "nodes" d = Some (PList nodes) ->
  Forall2 (fun issue ps => Sync.issue_params issue = Ok ps) nodes rows ->
  lookup "totalCount" d = Some total ->
  Sync.sync_to_postgres w (PDict d) n =
    (Sync.Done tt, (n + 6 + List.length nodes)%nat,
     [Sync.Connect true;
      Sync.Execute Sync.CreateTable [] true;
      Sync.Execute Sync.CreateIndexSeverity [] true;
      Sync.Execute Sync.CreateIndexStatus [] true;
      Sync.Execute Sync.TruncateIssues [] true]
     ++ map (fun ps => Sync.Execute Sync.UpsertIssue ps true) rows
     ++ [Sync.Execute Sync.UpsertMetrics [total] true;
         Sync.Commit true;
         Sync.LogSynced (List.length nodes);
         Sync.Close]).
Proof.
  intros Hc Hdb Hn Hrows Ht.
  unfold Sync.sync_to_postgres, Sync.connect. rewrite Hc.
  unfold Sync.finally, Sync.bind, Sync.emit, Sync.execute, Sync.commit,
    Sync.lift, subscript, Sync.py_iter.
  rewrite !Hdb, Hn, Ht. rewrite (for_each_upserts w nodes rows Hdb Hrows).
  rewrite !Hdb. simpl. rewrite <- !app_assoc. simpl.
  repeat f_equal. lia.
Qed.

Lemma sync_success_trace_witness :
  Sync.sync_to_postgres healthy_db (PDict sample_issues_data) 0%nat =
    (Sync.Done tt, (0 + 6 + 2)%nat,
     [Sync.Connect true;
      Sync.Execute Sync.CreateTable [] true;
      Sync.Execute Sync.CreateIndexSeverity [] true;
      Sync.Execute Sync.CreateIndexStatus [] true;
      Sync.Execute Sync.TruncateIssues [] true]
     ++ map (fun ps => Sync.Execute Sync.UpsertIssue ps true)
          [[PStr "issue-1"; PStr "CRITICAL"; PStr "OPEN";
            PStr "2025-01-01T00:00:00Z"; PStr "vm-1"; PStr "VIRTUAL_MACHINE"];
           [PStr "issue-2"; PStr "LOW"; PStr "RESOLVED";
            PStr "2025-01-02T00:00:00Z"; PNone; PNone]]
     ++ [Sync.Execute Sync.UpsertMetrics [PInt 2] true;
         Sync.Commit true;
         Sync.LogSynced 2;
         Sync.Close]).
Proof.
  apply (sync_success_trace healthy_db sample_issues_data
           [sample_issue; sample_issue_no_snapshot]).
  - reflexivity.
  - intros k. reflexivity.
  - reflexivity.
  - repeat constructor.
  - reflexivity.
Defined.

(** X17.  Old rows are cleared first: every upsert of an issue that the
    job executes comes after a successful [TRUNCATE TABLE wiz_issues] on
    the same connection. *)
Theorem truncate_precedes_upserts (w : Sync.world) (issues_data : pyval)
    (n : nat) (ps : list pyval) (ok : bool) :
  In (Sync.Execute Sync.UpsertIssue ps ok)
     (snd (Sync.sync_to_postgres w issues_data n)) ->
  exists ev1 ev2,
    snd (Sync.sync_to_postgres w issues_data n) =
      ev1 ++ Sync.Execute Sync.TruncateIssues [] true :: ev2 /\
    In (Sync.Execute Sync.UpsertIssue ps ok) ev2.
Proof.
  unfold Sync.sync_to_postgres.
  match goal with
  | |- context [Sync.bind (Sync.execute w Sync.TruncateIssues []) ?k] =>
      set (rest := k)
  end.
  clearbody rest.
  cbv beta zeta delta [Sync.bind Sync.emit Sync.finally Sync.connect Sync.raise
                       Sync.execute].
  destruct (Sync.connect_reply w) as [msg|]; simpl.
  { intros [H | []]. discriminate H. }
  destruct (Sync.db_reply w n); simpl.
  { intros H. repeat (destruct H as [H | H]; try discriminate H). contradiction. }
  destruct (Sync.db_reply w (S n)); simpl.
  { intros H. repeat (destruct H as [H | H]; try discriminate H). contradiction. }
  destruct (Sync.db_reply w (S (S n))); simpl.
  { intros H. repeat (destruct H as [H | H]; try discriminate H). contradiction. }
  destruct (Sync.db_reply w (S (S (S n)))); simpl.
  { intros H. repeat (destruct H as [H | H]; try discriminate H). contradiction. }
  destruct (rest tt (S (S (S (S n))))) as [[r n1] evr]. simpl.
  intros H. repeat (destruct H as [H | H]; try discriminate H).
  exists [Sync.Connect true;
          Sync.Execute Sync.CreateTable [] true;
          Sync.Execute Sync.CreateIndexSeverity [] true;
          Sync.Execute Sync.CreateIndexStatus [] true],
         (evr ++ [Sync.Close]).
  split; [reflexivity | exact H].
Qed.

(** X18.  The entity columns: an issue whose [entitySnapshot] is null (or
    otherwise falsy) gives [None] for name and type, whereas an issue
    without the [entitySnapshot] key raises [KeyError]. *)
Theorem null_snapshot_gives_null_columns (d : list (string * pyval))
    (id severity status created_at : pyval) :
  lookup "id" d = Some id ->
  lookup "severity" d = Some severity ->
  lookup "status" d = Some status ->
  lookup "createdAt" d = Some created_at ->
  (forall snap,
      lookup "entitySnapshot" d = Some snap -> truthy snap = false ->
      Sync.issue_params (PDict d) =
        Ok [id; severity; status; created_at; PNone; PNone])
  /\
  (lookup "entitySnapshot" d = None ->
   Sync.issue_params (PDict d) = Raise (KeyError "entitySnapshot")).
Proof.
  intros Hi Hs Hst Hc.
  unfold Sync.issue_params, Sync.snapshot_field, Sync.and_then, subscript.
  rewrite Hi, Hs, Hst, Hc. split.
  - intros snap Hsnap Ht. rewrite Hsnap, Ht. reflexivity.
  - intros Hsnap. rewrite Hsnap. reflexivity.
Qed.

Lemma truncate_precedes_upserts_witness :
  exists ev1 ev2,
    snd (Sync.sync_to_postgres healthy_db (PDict sample_issues_data) 0%nat) =
      ev1 ++ Sync.Execute Sync.TruncateIssues [] true :: ev2 /\
    In (Sync.Execute Sync.UpsertIssue
          [PStr "issue-2"; PStr "LOW"; PStr "RESOLVED";
           PStr "2025-01-02T00:00:00Z"; PNone; PNone] true) ev2.
Proof.
  apply (truncate_precedes_upserts healthy_db (PDict sample_issues_data) 0%nat).
  simpl. auto 10.
Defined.

Lemma null_snapshot_gives_null_columns_witness :
  Sync.issue_params sample_issue_no_snapshot =
    Ok [PStr "issue-2"; PStr "LOW"; PStr "RESOLVED";
        PStr "2025-01-02T00:00:00Z"; PNone; PNone].
Proof.
  apply (proj1 (null_snapshot_gives_null_columns
                  [("id", PStr "issue-2"); ("severity", PStr "LOW");
                   ("status", PStr "RESOLVED");
                   ("createdAt", PStr "2025-01-02T00:00:00Z");
                   ("entitySnapshot", PNone)]
                  _ _ _ _ eq_refl eq_refl eq_refl eq_refl) PNone).
  - reflexivity.
  - reflexivity.
Defined.

(** ** The safety margin at its bound *)

(** X19.  A token whose reported lifetime is at most 60 seconds is stored
    already expired: no lookup at or after the time of storage is served
    from the cache. *)
Theorem short_lifetime_never_reused (tok : pyval) (L T : Z) (c : cache)
    (w : env) :
  stored tok L T c ->
  L <= 60 ->
  T <= now_check w ->
  cache_check c (now_check w) = None /\
  exists res c' ev,
    get_wiz_token w c = (res, c', LogFetching :: AuthPost :: ev).
Proof.
  intros Hs HL HT. apply stored_cache in Hs. subst c.
  assert (Hc : cache_check (mkCache tok (Some (T + (L - 60) * us_per_second)))
                 (now_check w) = None).
  { unfold cache_check. simpl.
    assert (Hge : (now_check w <? T + (L - 60) * us_per_second) = false).
    { apply Z.ltb_ge. unfold us_per_second. lia. }
    rewrite Hge. destruct (truthy tok); reflexivity. }
  split; [exact Hc | apply get_wiz_token_miss; exact Hc].
Qed.

Lemma short_lifetime_never_reused_witness :
  let w := mkEnv t0 t0
             (Replied (mkHttp 200 "<token document>"
                         (Some (PDict [("access_token", PStr "abc");
                                       ("expires_in", PInt 60)]))))
             upstream_ok in
  let c := mkCache (PStr "abc") (Some (t0 + (60 - 60) * us_per_second)) in
  cache_check c (now_check w) = None /\
  exists res c' ev,
    get_wiz_token w c = (res, c', LogFetching :: AuthPost :: ev).
Proof.
  intros w c.
  apply (short_lifetime_never_reused (PStr "abc") 60 t0 c w).
  - apply (stored_intro w token_cache (PStr "abc") 60).
    + reflexivity.
    + eexists. eexists.
      split; [reflexivity|]. split; [reflexivity|]. split; [reflexivity|].
      split; [reflexivity|]. left. reflexivity.
    + unfold lifetime_in_range. vm_compute. intuition discriminate.
  - lia.
  - vm_compute. discriminate.
Defined.
